(** * The edit session of [src/App.tsx]

    A shallow embedding of the [App] component's state and of its event
    handlers [handleFileSelect], [handleGenerate] and [handleReset], with
    the browser boundary they touch (pending [FileReader]s, pending
    [editImageWithGemini] promises, the object-URL store), followed by the
    properties of the request/response state machine. *)

From Stdlib Require Import NArith ZArith Ascii String DecimalString DecimalZ.
From stdpp Require Import base list.

Local Open Scope N_scope.

(** ** Strings

    A JavaScript string is a sequence of UTF-16 code units. *)

Definition jsstring : Type := list N.

(** A source literal (all literals of [App.tsx] are ASCII). *)
Definition lit (s : string) : jsstring :=
  map N_of_ascii (list_ascii_of_string s).

(** [WhiteSpace] and [LineTerminator] of ECMAScript, the code points that
    [String.prototype.trim] strips; all of them are single code units. *)
Definition isWhiteSpace (c : N) : bool :=
  (c =? 0x09) || (c =? 0x0A) || (c =? 0x0B) || (c =? 0x0C) || (c =? 0x0D)
  || (c =? 0x20) || (c =? 0xA0) || (c =? 0x1680)
  || ((0x2000 <=? c) && (c <=? 0x200A))
  || (c =? 0x2028) || (c =? 0x2029) || (c =? 0x202F) || (c =? 0x205F)
  || (c =? 0x3000) || (c =? 0xFEFF).

Fixpoint trimStart (s : jsstring) : jsstring :=
  match s with
  | [] => []
  | c :: s' => if isWhiteSpace c then trimStart s' else s
  end.

Definition trimEnd (s : jsstring) : jsstring := rev (trimStart (rev s)).

(** [s.trim()] *)
Definition trim (s : jsstring) : jsstring := trimEnd (trimStart s).

(** [s.startsWith(p)] *)
Fixpoint startsWith (s p : jsstring) : bool :=
  match p, s with
  | [], _ => true
  | _ :: _, [] => false
  | d :: p', c :: s' => (c =? d) && startsWith s' p'
  end.

(** Truthiness of a string: every string but the empty one. *)
Definition truthy (s : jsstring) : bool :=
  match s with [] => false | _ :: _ => true end.

(** Truthiness of an optional string property ([undefined] or [null] is
    falsy, and so is the empty string). *)
Definition truthy_opt (v : option jsstring) : bool :=
  match v with Some s => truthy s | None => false end.

(** [v || d] for an optional string [v] and a string [d]. *)
Definition or_else (v : option jsstring) (d : jsstring) : jsstring :=
  match v with
  | Some (c :: s) => c :: s
  | _ => d
  end.

(** ** Data model ([src/types.ts]) *)

Record ImageData : Type := mkImageData {
  base64 : jsstring;
  mimeType : jsstring;
  url : jsstring
}.

Inductive ProcessingState : Type := IDLE | LOADING | SUCCESS | ERROR.

Record GeneratedResult : Type := mkGeneratedResult {
  imageUrl : option jsstring;
  text : option jsstring
}.

#[global] Instance ProcessingState_eq_dec : EqDecision ProcessingState.
Proof. solve_decision. Defined.

#[global] Instance ImageData_eq_dec : EqDecision ImageData.
Proof. solve_decision. Defined.

(** The five [useState] cells of [App]. *)
Record AppState : Type := mkAppState {
  originalImage : option ImageData;
  prompt : jsstring;
  status : ProcessingState;
  resultImage : option jsstring;
  errorMsg : option jsstring
}.

#[global] Instance AppState_eq_dec : EqDecision AppState.
Proof. solve_decision. Defined.

Definition setOriginalImage (v : option ImageData) (s : AppState) : AppState :=
  mkAppState v (prompt s) (status s) (resultImage s) (errorMsg s).

Definition setPrompt (v : jsstring) (s : AppState) : AppState :=
  mkAppState (originalImage s) v (status s) (resultImage s) (errorMsg s).

Definition setStatus (v : ProcessingState) (s : AppState) : AppState :=
  mkAppState (originalImage s) (prompt s) v (resultImage s) (errorMsg s).

Definition setResultImage (v : option jsstring) (s : AppState) : AppState :=
  mkAppState (originalImage s) (prompt s) (status s) v (errorMsg s).

Definition setErrorMsg (v : option jsstring) (s : AppState) : AppState :=
  mkAppState (originalImage s) (prompt s) (status s) (resultImage s) v.

(** The initial values passed to [useState]. *)
Definition initialState : AppState :=
  mkAppState None [] IDLE None None.

(** ** The browser boundary *)

(** A [File]; [type] is its declared content kind. *)
Record File : Type := mkFile {
  name : jsstring;
  type : jsstring
}.

(** A value thrown into the [catch] of [handleGenerate] on which
    [error.message] can be read: an object whose [message] property, when
    it has one, is a string ([Error] and its subclasses, and values without
    a message).  A thrown [null] or [undefined] is the separate settlement
    [RejectedNullish] below. *)
Record JsError : Type := mkJsError {
  message : option jsstring
}.

(** How the awaited [editImageWithGemini] promise settles: with a result,
    with a thrown value that has properties, or with a thrown [null] or
    [undefined] ([catch (error: any)] receives whatever was thrown). *)
Inductive Awaited : Type :=
| Resolved (result : GeneratedResult)
| Rejected (error : JsError)
| RejectedNullish.

(** The arguments of one [editImageWithGemini(originalImage, prompt)] call. *)
Record Call : Type := mkCall {
  call_image : ImageData;
  call_prompt : jsstring
}.

(** The component together with what its handlers reach outside of it:
    - [fileInputRef]: [None] when [fileInputRef.current] is null, else the
      [value] of the file input;
    - [readers]: the files whose [FileReader] has been started by
      [readAsDataURL] and has not fired [onload] yet;
    - [inflight]: the [editImageWithGemini] calls that have not settled;
    - [objectURLs]: the object URLs created by [URL.createObjectURL] and
      not revoked. *)
Record World : Type := mkWorld {
  st : AppState;
  fileInputRef : option jsstring;
  readers : list File;
  inflight : list Call;
  objectURLs : list jsstring
}.

Definition initialWorld : World :=
  mkWorld initialState (Some []) [] [] [].

Definition with_st (f : AppState -> AppState) (w : World) : World :=
  mkWorld (f (st w)) (fileInputRef w) (readers w) (inflight w) (objectURLs w).

(** ** The handlers of [App] *)

(** [handleFileSelect], lines 49-72.  A file whose type does not start
    with [image/] stores a message with [setErrorMsg] and returns; an image
    file starts a [FileReader], whose [onload] is [reader_onload]. *)
Definition handleFileSelect (files : option (list File)) (w : World) : World :=
  match files with
  | Some (file :: _) =>
      if negb (startsWith (type file) (lit "image/")) then
        with_st (setErrorMsg (Some (lit "Please select a valid image file."))) w
      else
        mkWorld (st w) (fileInputRef w) (readers w ++ [file]) (inflight w)
                (objectURLs w)
  | _ => w
  end.

(** [reader.onload], lines 58-69, for the [i]-th pending reader.  [result]
    is [e.target?.result] and [objUrl] the string the browser returns from
    [URL.createObjectURL(file)], which is called in the truthy branch only. *)
Definition reader_onload (i : nat) (result : option jsstring)
    (objUrl : jsstring) (w : World) : World :=
  match readers w !! i with
  | None => w
  | Some file =>
      match result with
      | Some (c :: r) =>
          mkWorld
            (setErrorMsg None
               (setStatus IDLE
                  (setResultImage None
                     (setOriginalImage
                        (Some (mkImageData (c :: r) (type file) objUrl))
                        (st w)))))
            (fileInputRef w) (delete i (readers w)) (inflight w)
            (objUrl :: objectURLs w)
      | _ =>
          mkWorld (st w) (fileInputRef w) (delete i (readers w)) (inflight w)
                  (objectURLs w)
      end
  end.

(** [handleGenerate] up to its [await], lines 74-82: the guard, the three
    setters and the call of [editImageWithGemini]. *)
Definition handleGenerate (w : World) : World :=
  match originalImage (st w) with
  | None => w
  | Some image =>
      if negb (truthy (trim (prompt (st w)))) then w
      else
        mkWorld
          (setResultImage None (setErrorMsg None (setStatus LOADING (st w))))
          (fileInputRef w) (readers w)
          (inflight w ++ [mkCall image (prompt (st w))])
          (objectURLs w)
  end.

(** What [handleGenerate] does after its [await], lines 84-94.  The setters
    take plain values, so they act on whatever the state is by then.  On a
    thrown [null] or [undefined], reading [error.message] on line 92 throws
    a [TypeError] inside the [catch]: neither setter runs and the state is
    left as it is. *)
Definition settle (a : Awaited) (s : AppState) : AppState :=
  match a with
  | Resolved result =>
      match imageUrl result with
      | Some (c :: u) =>
          setStatus SUCCESS (setResultImage (Some (c :: u)) s)
      | _ =>
          setStatus ERROR
            (setErrorMsg
               (Some (or_else (text result)
                  (lit "The model responded, but did not generate an image.")))
               s)
      end
  | Rejected error =>
      setStatus ERROR
        (setErrorMsg
           (Some (or_else (message error) (lit "An unexpected error occurred.")))
           s)
  | RejectedNullish => s
  end.

(** The [i]-th pending call settles with [a] and [handleGenerate] resumes. *)
Definition handleGenerate_resume (i : nat) (a : Awaited) (w : World) : World :=
  match inflight w !! i with
  | None => w
  | Some _ =>
      mkWorld (settle a (st w)) (fileInputRef w) (readers w)
              (delete i (inflight w)) (objectURLs w)
  end.

(** [handleReset], lines 97-106. *)
Definition handleReset (w : World) : World :=
  mkWorld
    (setErrorMsg None
       (setStatus IDLE
          (setPrompt []
             (setResultImage None (setOriginalImage None (st w))))))
    (match fileInputRef w with
     | Some _ => Some []
     | None => None
     end)
    (readers w) (inflight w) (objectURLs w).

(** ** The rendered controls (the JSX of lines 119-298) *)

(** The [disabled] attribute of the generate button, line 208. *)
Definition generateDisabled (s : AppState) : bool :=
  bool_decide (status s = LOADING) || negb (truthy (trim (prompt s))).

(** The intro section, with the file input, is rendered when there is no
    original image (line 126) and the workspace when there is one (line
    161); the ref of the file input follows its mounting. *)
Definition render (w : World) : World :=
  mkWorld (st w)
    (match originalImage (st w) with
     | None => Some (default [] (fileInputRef w))
     | Some _ => None
     end)
    (readers w) (inflight w) (objectURLs w).

Inductive Event : Type :=
| ChangeFile (value : jsstring) (files : option (list File))
| ReaderLoaded (i : nat) (result : option jsstring) (objUrl : jsstring)
| ChangePrompt (value : jsstring)
| ClickGenerate
| ClickClearAll
| Settled (i : nat) (a : Awaited).

(** A click on the generate button: a disabled button dispatches nothing. *)
Definition clickGenerate (w : World) : World :=
  if generateDisabled (st w) then w else handleGenerate w.

(** One event dispatched to the handler the JSX binds it to.  The controls
    of a section that is not rendered dispatch nothing. *)
Definition dispatch (w : World) (e : Event) : World :=
  match e, originalImage (st w) with
  | ChangeFile value files, None =>
      handleFileSelect files
        (mkWorld (st w) (Some value) (readers w) (inflight w) (objectURLs w))
  | ChangeFile _ _, Some _ => w
  | ReaderLoaded i result objUrl, _ => reader_onload i result objUrl w
  | ChangePrompt value, Some _ => with_st (setPrompt value) w
  | ChangePrompt _, None => w
  | ClickGenerate, Some _ => clickGenerate w
  | ClickGenerate, None => w
  | ClickClearAll, Some _ => handleReset w
  | ClickClearAll, None => w
  | Settled i a, _ => handleGenerate_resume i a w
  end.

Definition step (w : World) (e : Event) : World := render (dispatch w e).

Definition run (w : World) (evs : list Event) : World := foldl step w evs.

(** ** Blank strings

    Empty or made of white space only: what [!prompt.trim()] tests. *)
Definition blank (s : jsstring) : bool := forallb isWhiteSpace s.

(** ** Sample sessions *)

Definition jpegFile : File := mkFile (lit "cat.jpg") (lit "image/jpeg").

Definition textFile : File := mkFile (lit "notes.txt") (lit "text/plain").

Definition jpegImage : ImageData :=
  mkImageData (lit "data:image/jpeg;base64,/9j/4AAQ") (lit "image/jpeg")
              (lit "blob:cat").

Definition editedUrl : jsstring := lit "data:image/png;base64,iVBORw0KGgo".

(** A JPEG has been acquired and an instruction typed. *)
Definition readyWorld : World :=
  run initialWorld
    [ChangeFile (lit "C:\fakepath\cat.jpg") (Some [jpegFile]);
     ReaderLoaded 0 (Some (base64 jpegImage)) (url jpegImage);
     ChangePrompt (lit "Convert to black and white")].

(** The generate button has been clicked and the call is in flight. *)
Definition loadingWorld : World := run readyWorld [ClickGenerate].

Definition pngFile : File := mkFile (lit "dog.png") (lit "image/png").

(** A second image is acquired while the first one is displayed. *)
Definition supersededWorld : World :=
  reader_onload 0 (Some (lit "data:image/png;base64,iVBOR")) (lit "blob:dog")
    (handleFileSelect (Some [pngFile]) readyWorld).

(** The session of Scenario C, in [ERROR] with the message "timeout". *)
Definition failedWorld : World :=
  run loadingWorld [Settled 0 (Rejected (mkJsError (Some (lit "timeout"))))].

(** ** What is displayed (the JSX of lines 119-298) *)

(** The right-hand panel, lines 259-288: the result with its download
    button, the spinner, or the placeholder text. *)
Inductive ResultPanel : Type :=
| ResultShown (src : jsstring)
| Spinner
| Placeholder.

(** The workspace section, lines 161-295. *)
Record Workspace : Type := mkWorkspace {
  ws_original : jsstring;       (* src of the "Original" image, line 247 *)
  ws_textarea : jsstring;       (* value of the textarea, line 178 *)
  ws_disabled : bool;           (* disabled of the generate button, line 208 *)
  ws_generating : bool;         (* label "Generating..." (line 215) *)
  ws_error : option jsstring;   (* the error box, lines 229-233 *)
  ws_result : ResultPanel
}.

Inductive View : Type :=
| IntroView
| WorkspaceView (ws : Workspace).

Definition resultPanel (s : AppState) : ResultPanel :=
  match resultImage s with
  | Some (c :: u) => ResultShown (c :: u)
  | _ => if bool_decide (status s = LOADING) then Spinner else Placeholder
  end.

Definition errorBox (s : AppState) : option jsstring :=
  match errorMsg s with
  | Some (c :: m) => Some (c :: m)
  | _ => None
  end.

Definition view (s : AppState) : View :=
  match originalImage s with
  | None => IntroView
  | Some image =>
      WorkspaceView
        (mkWorkspace (url image) (prompt s) (generateDisabled s)
           (bool_decide (status s = LOADING)) (errorBox s) (resultPanel s))
  end.

(** ** The prompt suggestions (lines 7-38 and 185-202) *)

Record Category : Type := mkCategory {
  category_name : jsstring;
  prompts : list jsstring
}.

Definition PROMPT_CATEGORIES : list Category :=
  [mkCategory (lit "Color & Atmosphere")
     [lit "Change colors to a cyberpunk neon palette";
      lit "Apply a vintage sepia filter with film grain";
      lit "Add a dramatic sunset lighting effect";
      lit "Change the lighting to a moody rainy night";
      lit "Convert to black and white high contrast photography"];
   mkCategory (lit "Art Styles")
     [lit "Convert this to a minimalist line art sketch";
      lit "Transform into a detailed oil painting";
      lit "Style as a 1990s anime screenshot";
      lit "Make it look like a 16-bit pixel art game";
      lit "Render as a low-poly 3D model"];
   mkCategory (lit "Creative Effects")
     [lit "Make the object look like it is made of translucent glass";
      lit "Add a futuristic holographic wireframe overlay";
      lit "Turn the scene into a miniature diorama tilt-shift";
      lit "Make it look like a sticker with a white border";
      lit "Apply a psychedelic glitch art effect"]].

(** The suggestion button [idx] of category [catIdx], if there is one. *)
Definition suggestion (catIdx idx : nat) : option jsstring :=
  match PROMPT_CATEGORIES !! catIdx with
  | Some category => prompts category !! idx
  | None => None
  end.

(** A click on a suggestion button, line 194; the buttons are part of the
    workspace. *)
Definition clickSuggestion (catIdx idx : nat) (w : World) : World :=
  match suggestion catIdx idx, originalImage (st w) with
  | Some s, Some _ => with_st (setPrompt s) w
  | _, _ => w
  end.

(** ** [downloadImage] (lines 108-117) *)

(** The anchor made by [document.createElement('a')]. *)
Record Anchor : Type := mkAnchor {
  href : jsstring;
  download : jsstring
}.

(** The part of the document [downloadImage] touches: the children of
    [document.body] as node identities, the identity the next created
    node gets, and the anchors that have been clicked, oldest first. *)
Record Document : Type := mkDocument {
  body : list nat;
  nextNode : nat;
  clicked : list Anchor
}.

(** [parent.removeChild(node)] on the list of children. *)
Fixpoint removeChild (node : nat) (children : list nat) : list nat :=
  match children with
  | [] => []
  | n :: rest => if Nat.eqb n node then rest else n :: removeChild node rest
  end.

(** The template literal of line 112; [now] is [Date.now()], an integer
    that is printed in decimal. *)
Definition downloadName (now : Z) : jsstring :=
  lit "nano-banana-edit-" ++ lit (NilEmpty.string_of_int (Z.to_int now))
  ++ lit ".png".

Definition downloadImage (now : Z) (s : AppState) (d : Document) : Document :=
  match resultImage s with
  | Some (c :: u) =>
      let link := nextNode d in
      mkDocument (removeChild link (body d ++ [link])) (S link)
                 (clicked d ++ [mkAnchor (c :: u) (downloadName now)])
  | _ => d
  end.

(** ** Runs in which nothing interrupts a call in flight *)

(** The events that bring the status back to [IDLE]. *)
Definition resets (e : Event) : bool :=
  match e with
  | ClickClearAll | ReaderLoaded _ _ _ => true
  | _ => false
  end.

(** No "Clear All" and no reader load happens while a call is in flight. *)
Fixpoint calm (w : World) (evs : list Event) : bool :=
  match evs with
  | [] => true
  | e :: evs' =>
      (negb (resets e) || bool_decide (length (inflight w) = 0%nat))
      && calm (step w e) evs'
  end.

(** ** The states the component can reach *)

(** What every state reached from [initialWorld] satisfies: the status
    agrees with the stored result and error, and only images with a live
    object URL are held and submitted. *)
Definition coherent (w : World) : Prop :=
  (status (st w) = SUCCESS -> truthy_opt (resultImage (st w)) = true) /\
  (status (st w) = ERROR -> truthy_opt (errorMsg (st w)) = true) /\
  (status (st w) = IDLE -> resultImage (st w) = None) /\
  Forall (fun f => startsWith (type f) (lit "image/") = true) (readers w) /\
  (forall image,
     originalImage (st w) = Some image ->
     startsWith (mimeType image) (lit "image/") = true /\
     truthy (base64 image) = true /\
     url image ∈ objectURLs w) /\
  Forall (fun c =>
            blank (call_prompt c) = false /\
            startsWith (mimeType (call_image c)) (lit "image/") = true /\
            truthy (base64 (call_image c)) = true)
         (inflight w).

(** At most one call is in flight, and only while the status is
    [LOADING]. *)
Definition single_flight (w : World) : Prop :=
  inflight w = [] \/
  (status (st w) = LOADING /\ length (inflight w) = 1%nat).

(** The status [LOADING] has a call in flight behind it. *)
Definition loading_backed (w : World) : Prop :=
  status (st w) = LOADING -> inflight w <> [].

(** The settlement of a call with a thrown [null] or [undefined]. *)
Definition nullish (e : Event) : bool :=
  match e with
  | Settled _ RejectedNullish => true
  | _ => false
  end.

(** No call of the run is rejected with [null] or [undefined]. *)
Definition no_nullish (evs : list Event) : bool :=
  forallb (fun e => negb (nullish e)) evs.

(** The stored result and error agree with the status: nothing stale is
    kept while loading, no error beside a result, no result beside an
    error. *)
Definition exclusive (s : AppState) : Prop :=
  (status s = LOADING ->
   originalImage s <> None /\ resultImage s = None /\ errorMsg s = None) /\
  (status s = SUCCESS -> originalImage s <> None /\ errorMsg s = None) /\
  (status s = ERROR -> resultImage s = None).

(** ** Sample event sequences *)

(** The events that lead to [readyWorld]. *)
Definition acquireEvents : list Event :=
  [ChangeFile (lit "C:\fakepath\cat.jpg") (Some [jpegFile]);
   ReaderLoaded 0 (Some (base64 jpegImage)) (url jpegImage);
   ChangePrompt (lit "Convert to black and white")].

(** ... then to [loadingWorld]. *)
Definition generateEvents : list Event := acquireEvents ++ [ClickGenerate].

Definition successEvents : list Event :=
  generateEvents ++ [Settled 0 (Resolved (mkGeneratedResult (Some editedUrl) None))].

Definition errorEvents : list Event :=
  generateEvents ++ [Settled 0 (Rejected (mkJsError (Some (lit "timeout"))))].

(** The call is rejected with [undefined]. *)
Definition nullishEvents : list Event :=
  generateEvents ++ [Settled 0 RejectedNullish].

(** * Properties *)

(** ** [trim] and blank strings *)

Lemma trimStart_nil_blank (s : jsstring) : trimStart s = [] <-> blank s = true.
Proof.
  induction s as [|c s IH]; simpl; [easy|].
  destruct (isWhiteSpace c); simpl; [exact IH|].
  split; discriminate.
Qed.

Lemma trimStart_head (s : jsstring) (c : N) (r : jsstring) :
  trimStart s = c :: r -> isWhiteSpace c = false.
Proof.
  induction s as [|d s IH]; simpl; [discriminate|].
  destruct (isWhiteSpace d) eqn:Hd; [exact IH|].
  intros [= -> _]. exact Hd.
Qed.

Lemma blank_rev (s : jsstring) : blank (rev s) = blank s.
Proof.
  unfold blank. induction s as [|c s IH]; simpl; [reflexivity|].
  rewrite forallb_app, IH. simpl.
  rewrite andb_true_r. apply andb_comm.
Qed.

Lemma trim_nil_blank (s : jsstring) : trim s = [] <-> blank s = true.
Proof.
  unfold trim, trimEnd. split.
  - intros H. apply (f_equal (@rev N)) in H.
    rewrite rev_involutive in H. simpl in H.
    apply trimStart_nil_blank in H. rewrite blank_rev in H.
    destruct (trimStart s) as [|c r] eqn:E.
    + apply trimStart_nil_blank. exact E.
    + apply trimStart_head in E. simpl in H. rewrite E in H. discriminate.
  - intros H. apply trimStart_nil_blank in H. rewrite H. reflexivity.
Qed.

Lemma truthy_trim (s : jsstring) : truthy (trim s) = negb (blank s).
Proof.
  destruct (blank s) eqn:E.
  - apply trim_nil_blank in E. rewrite E. reflexivity.
  - destruct (trim s) eqn:T; [|reflexivity].
    apply trim_nil_blank in T. congruence.
Qed.

Example trim_spaces : trim (lit "  add a hat 	") = lit "add a hat".
Proof. reflexivity. Qed.

Example blank_newlines : blank (0x20 :: 0x0A :: 0xA0 :: 0x3000 :: []) = true.
Proof. reflexivity. Qed.

Example startsWith_png : startsWith (lit "image/png") (lit "image/") = true.
Proof. reflexivity. Qed.

Example startsWith_text : startsWith (lit "text/plain") (lit "image/") = false.
Proof. reflexivity. Qed.

Example readyWorld_eq :
  readyWorld =
  mkWorld
    (mkAppState (Some jpegImage) (lit "Convert to black and white") IDLE
                None None)
    None [] [] [url jpegImage].
Proof. reflexivity. Qed.

Example loadingWorld_eq :
  loadingWorld =
  mkWorld
    (mkAppState (Some jpegImage) (lit "Convert to black and white") LOADING
                None None)
    None [] [mkCall jpegImage (lit "Convert to black and white")]
    [url jpegImage].
Proof. reflexivity. Qed.

(** Scenario A of the specification. *)
Example scenario_A :
  st (run loadingWorld [Settled 0 (Resolved (mkGeneratedResult (Some editedUrl) None))])
  = mkAppState (Some jpegImage) (lit "Convert to black and white") SUCCESS
               (Some editedUrl) None.
Proof. reflexivity. Qed.

(** Scenario B of the specification. *)
Example scenario_B :
  st (run loadingWorld
        [Settled 0 (Resolved (mkGeneratedResult None (Some (lit "I cannot do that"))))])
  = mkAppState (Some jpegImage) (lit "Convert to black and white") ERROR
               None (Some (lit "I cannot do that")).
Proof. reflexivity. Qed.

(** Scenario C of the specification. *)
Example scenario_C :
  st (run loadingWorld [Settled 0 (Rejected (mkJsError (Some (lit "timeout"))))])
  = mkAppState (Some jpegImage) (lit "Convert to black and white") ERROR
               None (Some (lit "timeout")).
Proof. reflexivity. Qed.

(** ** The continuation of [handleGenerate] *)

Lemma settle_status (a : Awaited) (s : AppState) :
  a <> RejectedNullish ->
  status (settle a s) = SUCCESS \/ status (settle a s) = ERROR.
Proof.
  destruct a as [[[[|c u]|] t]|e|]; simpl; auto. congruence.
Qed.

Lemma settle_success_iff (a : Awaited) (s : AppState) :
  a <> RejectedNullish ->
  status (settle a s) = SUCCESS <->
  exists r c u, a = Resolved r /\ imageUrl r = Some (c :: u).
Proof.
  intros Hn. split.
  - destruct a as [[[[|c u]|] t]|e|]; simpl; try discriminate;
      try congruence.
    intros _. eexists _, c, u. split; reflexivity.
  - intros (r & c & u & -> & H). simpl. rewrite H. reflexivity.
Qed.

Lemma settle_nullish (s : AppState) : settle RejectedNullish s = s.
Proof. reflexivity. Qed.

Lemma settle_keeps (a : Awaited) (s : AppState) :
  originalImage (settle a s) = originalImage s /\
  prompt (settle a s) = prompt s.
Proof.
  destruct a as [[[[|c u]|] t]|e|]; simpl; auto.
Qed.

Lemma or_else_truthy (m d : jsstring) : m <> [] -> or_else (Some m) d = m.
Proof. destruct m; [congruence|reflexivity]. Qed.

Lemma handleGenerate_fires (w : World) (image : ImageData) :
  originalImage (st w) = Some image ->
  blank (prompt (st w)) = false ->
  handleGenerate w =
  mkWorld (setResultImage None (setErrorMsg None (setStatus LOADING (st w))))
          (fileInputRef w) (readers w)
          (inflight w ++ [mkCall image (prompt (st w))]) (objectURLs w).
Proof.
  intros Hi Hb. unfold handleGenerate.
  rewrite Hi, truthy_trim, Hb. reflexivity.
Qed.

Lemma resume_last (w : World) (c : Call) (a : Awaited) (s : AppState) :
  handleGenerate_resume (length (inflight w)) a
    (mkWorld s (fileInputRef w) (readers w) (inflight w ++ [c]) (objectURLs w))
  = mkWorld (settle a s) (fileInputRef w) (readers w) (inflight w)
            (objectURLs w).
Proof.
  unfold handleGenerate_resume. simpl.
  rewrite list_lookup_middle by reflexivity.
  rewrite delete_middle, app_nil_r. reflexivity.
Qed.

(** ** C1: the generate cycle *)

(** X16.  In a session holding an image and an instruction that is not
    blank, [handleGenerate] first moves the status to [LOADING] with the
    stored result and error cleared, and submits the image and the
    instruction.  When that call resolves, or is rejected with a value
    other than [null] or [undefined], the status is [SUCCESS] or [ERROR],
    never [LOADING]; it is [SUCCESS] exactly when the call resolved with an
    image, which is then the stored result; a response with text and no
    image stores that text as the error, a rejection stores the message of
    the error, and a response with neither stores the default message. *)
Theorem generate_lifecycle_classified (w : World) (image : ImageData) :
  originalImage (st w) = Some image ->
  blank (prompt (st w)) = false ->
  let w1 := handleGenerate w in
  (status (st w1) = LOADING /\
   resultImage (st w1) = None /\
   errorMsg (st w1) = None /\
   inflight w1 = inflight w ++ [mkCall image (prompt (st w))]) /\
  forall a : Awaited,
    a <> RejectedNullish ->
    let w2 := handleGenerate_resume (length (inflight w)) a w1 in
    inflight w2 = inflight w /\
    status (st w2) <> LOADING /\
    (status (st w2) = SUCCESS \/ status (st w2) = ERROR) /\
    (status (st w2) = SUCCESS <->
       exists r c u, a = Resolved r /\ imageUrl r = Some (c :: u)) /\
    (forall r c u,
       a = Resolved r -> imageUrl r = Some (c :: u) ->
       status (st w2) = SUCCESS /\
       resultImage (st w2) = Some (c :: u) /\
       errorMsg (st w2) = None) /\
    (forall r m,
       a = Resolved r -> truthy_opt (imageUrl r) = false ->
       text r = Some m -> m <> [] ->
       status (st w2) = ERROR /\
       errorMsg (st w2) = Some m /\
       resultImage (st w2) = None) /\
    (forall r,
       a = Resolved r -> truthy_opt (imageUrl r) = false ->
       truthy_opt (text r) = false ->
       status (st w2) = ERROR /\
       errorMsg (st w2) =
         Some (lit "The model responded, but did not generate an image.") /\
       resultImage (st w2) = None) /\
    (forall e m,
       a = Rejected e -> message e = Some m -> m <> [] ->
       status (st w2) = ERROR /\
       errorMsg (st w2) = Some m /\
       resultImage (st w2) = None).
Proof.
  intros Hi Hb w1. subst w1.
  rewrite (handleGenerate_fires w image Hi Hb).
  split; [simpl; auto|].
  intros a Hn w2. subst w2. rewrite resume_last. cbn [st inflight].
  set (s := setResultImage None (setErrorMsg None (setStatus LOADING (st w)))).
  split; [reflexivity|].
  split; [destruct (settle_status a s Hn) as [H|H]; rewrite H; discriminate|].
  split; [apply settle_status, Hn|].
  split; [apply settle_success_iff, Hn|].
  split.
  { intros r c u -> Hu. simpl. rewrite Hu. auto. }
  split.
  { intros r m -> Hu Ht Hm. simpl.
    destruct (imageUrl r) as [[|c u]|]; try discriminate;
      rewrite Ht, (or_else_truthy m _ Hm); auto. }
  split.
  { intros r -> Hu Ht. simpl.
    destruct (imageUrl r) as [[|c u]|]; try discriminate;
      destruct (text r) as [[|d v]|]; try discriminate; auto. }
  intros e m -> He Hm. simpl. rewrite He, (or_else_truthy m _ Hm). auto.
Qed.

Lemma generate_lifecycle_classified_witness :
  originalImage (st readyWorld) = Some jpegImage /\
  blank (prompt (st readyWorld)) = false /\
  status (st (handleGenerate readyWorld)) = LOADING /\
  Resolved (mkGeneratedResult (Some editedUrl) None) <> RejectedNullish /\
  status (st (handleGenerate_resume 0
                (Resolved (mkGeneratedResult (Some editedUrl) None))
                (handleGenerate readyWorld))) <> LOADING.
Proof.
  assert (Hn : Resolved (mkGeneratedResult (Some editedUrl) None)
               <> RejectedNullish) by discriminate.
  split; [reflexivity|]. split; [reflexivity|].
  pose proof (generate_lifecycle_classified readyWorld jpegImage eq_refl eq_refl)
    as [(Hl & _) Hs].
  split; [exact Hl|]. split; [exact Hn|].
  exact (proj1 (proj2 (Hs _ Hn))).
Defined.

(** C1.  The claim fails on the code at one settlement.  In the session
    with a JPEG and the instruction "Convert to black and white",
    [handleGenerate] moves the status to [LOADING]; when the call is then
    rejected with [null] or [undefined], the [catch] block itself throws on
    [error.message], no setter runs, and the status is still [LOADING] with
    no result, no error and no call left in flight. *)
Theorem C1_nullish_rejection_stays_loading :
  originalImage (st readyWorld) = Some jpegImage /\
  blank (prompt (st readyWorld)) = false /\
  status (st (handleGenerate readyWorld)) = LOADING /\
  let w2 := handleGenerate_resume 0 RejectedNullish (handleGenerate readyWorld) in
  status (st w2) = LOADING /\
  resultImage (st w2) = None /\
  errorMsg (st w2) = None /\
  inflight w2 = [].
Proof. repeat split; reflexivity. Qed.

(** ** C2: a response that arrives after a reset *)

(** C2, as stated, fails.  Scenario E: the call is in flight, "Clear All"
    is clicked, then the call resolves with an image.  The late response is
    not discarded: the status becomes [SUCCESS] and the image is stored as
    the result, although the session holds no original image any more. *)
Lemma C2_late_response_not_discarded :
  status (st loadingWorld) = LOADING /\
  inflight loadingWorld = [mkCall jpegImage (lit "Convert to black and white")] /\
  st (run loadingWorld [ClickClearAll]) = initialState /\
  st (run loadingWorld
        [ClickClearAll;
         Settled 0 (Resolved (mkGeneratedResult (Some editedUrl) None))])
  = mkAppState None [] SUCCESS (Some editedUrl) None /\
  st (run loadingWorld
        [ClickClearAll; Settled 0 (Rejected (mkJsError (Some (lit "timeout"))))])
  = mkAppState None [] ERROR None (Some (lit "timeout")).
Proof. repeat split; reflexivity. Qed.

(** C2, amended.  When [handleReset] runs while a call is in flight, the
    response that arrives later is applied to the reset state like any
    other: resolved with an image, the status becomes [SUCCESS] and the
    image is stored as the result; resolved without an image, or rejected
    with a value other than [null] or [undefined], the status becomes
    [ERROR] and a message is stored.  The original image stays null and the
    instruction stays empty. *)
Theorem C2_late_response_applied (w : World) (i : nat) (c : Call) (a : Awaited) :
  status (st w) = LOADING ->
  inflight w !! i = Some c ->
  let w' := handleGenerate_resume i a (handleReset w) in
  originalImage (st w') = None /\
  prompt (st w') = [] /\
  (forall r u,
     a = Resolved r -> imageUrl r = Some u -> u <> [] ->
     status (st w') = SUCCESS /\ resultImage (st w') = Some u) /\
  (forall r,
     a = Resolved r -> truthy_opt (imageUrl r) = false ->
     status (st w') = ERROR /\
     errorMsg (st w') =
       Some (or_else (text r)
               (lit "The model responded, but did not generate an image."))) /\
  (forall e,
     a = Rejected e ->
     status (st w') = ERROR /\
     errorMsg (st w') =
       Some (or_else (message e) (lit "An unexpected error occurred."))).
Proof.
  intros _ Hc w'. subst w'.
  unfold handleGenerate_resume. cbn [handleReset inflight st].
  rewrite Hc. cbn [st].
  change (setErrorMsg None _) with initialState.
  split; [apply settle_keeps|].
  split; [apply settle_keeps|].
  split.
  { intros r [|d u] -> Hu Hne; [congruence|]. simpl. rewrite Hu. auto. }
  split.
  { intros r -> Hu. simpl.
    destruct (imageUrl r) as [[|d u]|]; try discriminate; auto. }
  intros e ->. simpl. auto.
Qed.

Lemma C2_late_response_applied_witness :
  status (st loadingWorld) = LOADING /\
  inflight loadingWorld !! 0%nat
    = Some (mkCall jpegImage (lit "Convert to black and white")) /\
  status (st (handleGenerate_resume 0
                (Resolved (mkGeneratedResult (Some editedUrl) None))
                (handleReset loadingWorld))) = SUCCESS.
Proof.
  split; [reflexivity|]. split; [reflexivity|].
  pose proof (C2_late_response_applied loadingWorld 0 _
                (Resolved (mkGeneratedResult (Some editedUrl) None))
                eq_refl eq_refl) as (_ & _ & H & _).
  apply (H _ editedUrl eq_refl eq_refl). discriminate.
Defined.

(** ** C3: a file that is not an image *)

(** C3, as stated, fails.  Selecting a text file in the initial session
    stores a message in [errorMsg], which was null before. *)
Lemma C3_rejection_stores_error :
  startsWith (type textFile) (lit "image/") = false /\
  errorMsg (st initialWorld) = None /\
  errorMsg (st (handleFileSelect (Some [textFile]) initialWorld))
  = Some (lit "Please select a valid image file.") /\
  st (handleFileSelect (Some [textFile]) initialWorld) <> st initialWorld.
Proof. repeat split; try reflexivity. discriminate. Qed.

(** C3, amended.  For a file whose type does not start with [image/],
    [handleFileSelect] starts no reader and creates no object URL, keeps
    the stored image, the result, the status and the instruction, and
    stores the message "Please select a valid image file." in [errorMsg]. *)
Theorem C3_non_image_rejected (w : World) (file : File) (rest : list File) :
  startsWith (type file) (lit "image/") = false ->
  let w' := handleFileSelect (Some (file :: rest)) w in
  originalImage (st w') = originalImage (st w) /\
  resultImage (st w') = resultImage (st w) /\
  status (st w') = status (st w) /\
  prompt (st w') = prompt (st w) /\
  errorMsg (st w') = Some (lit "Please select a valid image file.") /\
  readers w' = readers w /\
  inflight w' = inflight w /\
  objectURLs w' = objectURLs w /\
  fileInputRef w' = fileInputRef w.
Proof.
  intros H w'. subst w'. unfold handleFileSelect. rewrite H.
  repeat split; reflexivity.
Qed.

Lemma C3_non_image_rejected_witness :
  startsWith (type textFile) (lit "image/") = false /\
  status (st (handleFileSelect (Some [textFile]) loadingWorld)) = LOADING /\
  errorMsg (st (handleFileSelect (Some [textFile]) loadingWorld))
  = Some (lit "Please select a valid image file.").
Proof.
  split; [reflexivity|].
  pose proof (C3_non_image_rejected loadingWorld textFile [] eq_refl)
    as (_ & _ & Hs & _ & He & _).
  split; [rewrite Hs; reflexivity | exact He].
Defined.

(** ** C4: generate during [LOADING] *)

(** C4, as stated, fails.  [handleGenerate] does not look at the status:
    invoked while the first call is in flight, it is not ignored and
    submits a second call. *)
Lemma C4_handler_has_no_status_guard :
  status (st loadingWorld) = LOADING /\
  length (inflight loadingWorld) = 1%nat /\
  handleGenerate loadingWorld <> loadingWorld /\
  inflight (handleGenerate loadingWorld)
  = [mkCall jpegImage (lit "Convert to black and white");
     mkCall jpegImage (lit "Convert to black and white")].
Proof. repeat split; try reflexivity. discriminate. Qed.

(** Two calls in flight are also reachable through the rendered controls:
    "Clear All" stays enabled during [LOADING] and brings the status back
    to [IDLE] while the first call is pending. *)
Example two_calls_through_the_controls :
  inflight
    (run loadingWorld
       [ClickClearAll;
        ChangeFile (lit "C:\fakepath\cat.jpg") (Some [jpegFile]);
        ReaderLoaded 0 (Some (base64 jpegImage)) (lit "blob:cat2");
        ChangePrompt (lit "Add a hat");
        ClickGenerate])
  = [mkCall jpegImage (lit "Convert to black and white");
     mkCall (mkImageData (base64 jpegImage) (lit "image/jpeg") (lit "blob:cat2"))
            (lit "Add a hat")].
Proof. reflexivity. Qed.

(** C4, amended.  While the status is [LOADING] the generate button is
    disabled, so a click on it is ignored and submits nothing.  The guard
    is the disabled control alone: [handleGenerate] itself, invoked during
    [LOADING] with an image and an instruction that is not blank, submits a
    further call. *)
Theorem C4_loading_disables_control (w : World) :
  status (st w) = LOADING ->
  generateDisabled (st w) = true /\
  clickGenerate w = w /\
  dispatch w ClickGenerate = w /\
  (forall image,
     originalImage (st w) = Some image ->
     blank (prompt (st w)) = false ->
     inflight (handleGenerate w)
     = inflight w ++ [mkCall image (prompt (st w))]).
Proof.
  intros H.
  assert (Hd : generateDisabled (st w) = true).
  { unfold generateDisabled. rewrite bool_decide_eq_true_2 by exact H.
    reflexivity. }
  assert (Hc : clickGenerate w = w).
  { unfold clickGenerate. rewrite Hd. reflexivity. }
  split; [exact Hd|]. split; [exact Hc|]. split.
  - unfold dispatch. destruct (originalImage (st w)); [exact Hc|reflexivity].
  - intros image Hi Hb. rewrite (handleGenerate_fires w image Hi Hb).
    reflexivity.
Qed.

Lemma C4_loading_disables_control_witness :
  status (st loadingWorld) = LOADING /\
  clickGenerate loadingWorld = loadingWorld.
Proof.
  split; [reflexivity|].
  exact (proj1 (proj2 (C4_loading_disables_control loadingWorld eq_refl))).
Defined.

(** ** C5: generate without an image or without an instruction *)

(** C5.  When the session holds no image, or the instruction is empty or
    made of white space only, [handleGenerate] changes nothing: the status,
    the stored result and the stored error are as before and no call is
    submitted. *)
Theorem C5_generate_noop (w : World) :
  originalImage (st w) = None \/ blank (prompt (st w)) = true ->
  handleGenerate w = w /\
  status (st (handleGenerate w)) = status (st w) /\
  resultImage (st (handleGenerate w)) = resultImage (st w) /\
  errorMsg (st (handleGenerate w)) = errorMsg (st w) /\
  inflight (handleGenerate w) = inflight w.
Proof.
  intros H.
  assert (E : handleGenerate w = w).
  { unfold handleGenerate. destruct H as [H|H].
    - rewrite H. reflexivity.
    - rewrite truthy_trim, H. destruct (originalImage (st w)); reflexivity. }
  rewrite E. auto.
Qed.

Lemma C5_generate_noop_witness :
  (originalImage (st (with_st (setPrompt (lit "  ")) readyWorld)) = None \/
   blank (prompt (st (with_st (setPrompt (lit "  ")) readyWorld))) = true) /\
  handleGenerate (with_st (setPrompt (lit "  ")) readyWorld)
  = with_st (setPrompt (lit "  ")) readyWorld.
Proof.
  split; [right; reflexivity|].
  apply (C5_generate_noop (with_st (setPrompt (lit "  ")) readyWorld)).
  right. reflexivity.
Defined.

(** ** C6: a fault thrown by the client call *)

(** X17.  When a call in flight is rejected with a value other than [null]
    or [undefined], the status becomes [ERROR] and the stored error is the
    message of the thrown value, or "An unexpected error occurred." when it
    has no message or an empty one. *)
Theorem rejected_error_gives_error (w : World) (i : nat) (c : Call)
    (error : JsError) :
  inflight w !! i = Some c ->
  let w' := handleGenerate_resume i (Rejected error) w in
  status (st w') = ERROR /\
  (forall m, message error = Some m -> m <> [] -> errorMsg (st w') = Some m) /\
  (message error = None \/ message error = Some [] ->
   errorMsg (st w') = Some (lit "An unexpected error occurred.")) /\
  inflight w' = delete i (inflight w).
Proof.
  intros Hc w'. subst w'. unfold handleGenerate_resume. rewrite Hc.
  cbn [st inflight settle setStatus setErrorMsg status errorMsg].
  split; [reflexivity|]. split; [|split; [|reflexivity]].
  - intros m Hm Hne. rewrite Hm, (or_else_truthy m _ Hne). reflexivity.
  - intros [H|H]; rewrite H; reflexivity.
Qed.

Lemma rejected_error_gives_error_witness :
  inflight loadingWorld !! 0%nat
    = Some (mkCall jpegImage (lit "Convert to black and white")) /\
  status (st (handleGenerate_resume 0 (Rejected (mkJsError None)) loadingWorld))
  = ERROR.
Proof.
  split; [reflexivity|].
  exact (proj1 (rejected_error_gives_error loadingWorld 0 _ (mkJsError None)
                  eq_refl)).
Defined.

(** C6.  The claim fails on the code for the fault with the least to
    extract.  When the call in flight is rejected with [null] or
    [undefined], the [catch] block throws on [error.message] before its
    fallback applies: the status is not [ERROR] but still [LOADING], no
    message is stored, and the display keeps the spinner and the disabled
    button with no call left to end it. *)
Theorem C6_nullish_fault_not_reported :
  status (st loadingWorld) = LOADING /\
  let w' := run loadingWorld [Settled 0 RejectedNullish] in
  status (st w') <> ERROR /\
  status (st w') = LOADING /\
  errorMsg (st w') = None /\
  inflight w' = [] /\
  view (st w')
  = WorkspaceView
      (mkWorkspace (url jpegImage) (lit "Convert to black and white") true true
                   None Spinner).
Proof. repeat split; try reflexivity. discriminate. Qed.

(** ** C7 and C9: reset *)

(** C7.  From every state [handleReset] yields the idle state without an
    image: the stored image, the result and the error are null, the
    instruction is empty and the status is [IDLE]. *)
Theorem C7_reset_clears (w : World) :
  originalImage (st (handleReset w)) = None /\
  resultImage (st (handleReset w)) = None /\
  errorMsg (st (handleReset w)) = None /\
  prompt (st (handleReset w)) = [] /\
  status (st (handleReset w)) = IDLE.
Proof. repeat split. Qed.

(** C9.  [handleReset] is idempotent: run twice in a row it leaves the
    session, the file input and the browser boundary as one run does. *)
Theorem C9_reset_idempotent (w : World) :
  handleReset (handleReset w) = handleReset w.
Proof.
  unfold handleReset. cbn [st fileInputRef readers inflight objectURLs].
  destruct (fileInputRef w); reflexivity.
Qed.

(** ** C8: the object URL of a superseded image *)

(** C8, as stated, fails.  After a second acquisition the session refers to
    the new object URL while the one created for the first image is still
    in the store; after a reset the session refers to no image and the URL
    is still in the store.  Nothing has been revoked. *)
Lemma C8_handle_not_released :
  originalImage (st readyWorld) = Some jpegImage /\
  objectURLs readyWorld = [url jpegImage] /\
  option_map url (originalImage (st supersededWorld)) = Some (lit "blob:dog") /\
  objectURLs supersededWorld = [lit "blob:dog"; url jpegImage] /\
  originalImage (st (handleReset readyWorld)) = None /\
  objectURLs (handleReset readyWorld) = [url jpegImage].
Proof. repeat split; reflexivity. Qed.

Section ObjectURLs.

Variable u : jsstring.

Lemma objectURLs_handleFileSelect (files : option (list File)) (w : World) :
  objectURLs (handleFileSelect files w) = objectURLs w.
Proof.
  unfold handleFileSelect. destruct files as [[|file rest]|]; try reflexivity.
  destruct (negb _); reflexivity.
Qed.

Lemma objectURLs_reader_onload (i : nat) (result : option jsstring)
    (objUrl : jsstring) (w : World) :
  u ∈ objectURLs w -> u ∈ objectURLs (reader_onload i result objUrl w).
Proof.
  intros H. unfold reader_onload.
  destruct (readers w !! i); [|exact H].
  destruct result as [[|c r]|]; simpl; try exact H.
  apply elem_of_cons. right. exact H.
Qed.

Lemma objectURLs_handleGenerate (w : World) :
  objectURLs (handleGenerate w) = objectURLs w.
Proof.
  unfold handleGenerate. destruct (originalImage (st w)); [|reflexivity].
  destruct (negb _); reflexivity.
Qed.

Lemma objectURLs_resume (i : nat) (a : Awaited) (w : World) :
  objectURLs (handleGenerate_resume i a w) = objectURLs w.
Proof.
  unfold handleGenerate_resume. destruct (inflight w !! i); reflexivity.
Qed.

Lemma objectURLs_step (w : World) (e : Event) :
  u ∈ objectURLs w -> u ∈ objectURLs (step w e).
Proof.
  intros H. unfold step, render. cbn [objectURLs].
  destruct e as [value files|i result objUrl|value| | |i a];
    unfold dispatch; destruct (originalImage (st w)); try exact H.
  - rewrite objectURLs_handleFileSelect. exact H.
  - apply objectURLs_reader_onload. exact H.
  - apply objectURLs_reader_onload. exact H.
  - unfold clickGenerate. destruct (generateDisabled _); [exact H|].
    rewrite objectURLs_handleGenerate. exact H.
  - rewrite objectURLs_resume. exact H.
  - rewrite objectURLs_resume. exact H.
Qed.

Lemma objectURLs_run (evs : list Event) :
  forall w : World, u ∈ objectURLs w -> u ∈ objectURLs (run w evs).
Proof.
  induction evs as [|e evs IH]; intros w H; [exact H|].
  apply (IH (step w e)). apply objectURLs_step. exact H.
Qed.

End ObjectURLs.

(** C8, amended.  No handler releases an object URL: a display handle that
    is in the store stays in it when a new image is acquired, when
    [handleReset] runs, and after any sequence of events.  A new
    acquisition only adds its own URL and a reset only drops the reference
    the session holds. *)
Theorem C8_handle_survives (w : World) (image : ImageData) :
  originalImage (st w) = Some image ->
  url image ∈ objectURLs w ->
  (forall i file c r objUrl,
     readers w !! i = Some file ->
     let w' := reader_onload i (Some (c :: r)) objUrl w in
     option_map url (originalImage (st w')) = Some objUrl /\
     objectURLs w' = objUrl :: objectURLs w /\
     url image ∈ objectURLs w') /\
  (originalImage (st (handleReset w)) = None /\
   objectURLs (handleReset w) = objectURLs w /\
   url image ∈ objectURLs (handleReset w)) /\
  (forall evs, url image ∈ objectURLs (run w evs)).
Proof.
  intros _ H. split; [|split].
  - intros i file c r objUrl Hf w'. subst w'. unfold reader_onload.
    rewrite Hf. simpl. repeat split.
    apply elem_of_cons. right. exact H.
  - repeat split. exact H.
  - intros evs. apply objectURLs_run. exact H.
Qed.

Lemma C8_handle_survives_witness :
  originalImage (st readyWorld) = Some jpegImage /\
  url jpegImage ∈ objectURLs readyWorld /\
  url jpegImage ∈ objectURLs (run readyWorld [ClickGenerate; ClickClearAll]).
Proof.
  assert (H : url jpegImage ∈ objectURLs readyWorld).
  { apply elem_of_cons. left. reflexivity. }
  split; [reflexivity|]. split; [exact H|].
  exact (proj2 (proj2 (C8_handle_survives readyWorld jpegImage eq_refl H))
           [ClickGenerate; ClickClearAll]).
Defined.

(** ** C10: a successful acquisition *)

(** C10.  A file whose type starts with [image/] leaves the state as it is
    until its reader has loaded; when the reader loads with data, the new
    image (data URL, type of the file, object URL) is stored, the result
    and the error are cleared and the status is [IDLE], whatever the status
    and the outcome stored before.  The instruction is kept. *)
Theorem C10_acquire_discards_outcome (w : World) (file : File)
    (rest : list File) (c : N) (r objUrl : jsstring) :
  startsWith (type file) (lit "image/") = true ->
  let w1 := handleFileSelect (Some (file :: rest)) w in
  let w2 := reader_onload (length (readers w)) (Some (c :: r)) objUrl w1 in
  st w1 = st w /\
  readers w1 = readers w ++ [file] /\
  originalImage (st w2) = Some (mkImageData (c :: r) (type file) objUrl) /\
  resultImage (st w2) = None /\
  errorMsg (st w2) = None /\
  status (st w2) = IDLE /\
  prompt (st w2) = prompt (st w) /\
  readers w2 = readers w.
Proof.
  intros H w1 w2. subst w2 w1. unfold handleFileSelect. rewrite H.
  cbn [negb]. unfold reader_onload. cbn [readers st].
  rewrite list_lookup_middle by reflexivity.
  rewrite delete_middle, app_nil_r. repeat split.
Qed.

Lemma C10_acquire_discards_outcome_witness :
  startsWith (type pngFile) (lit "image/") = true /\
  status (st failedWorld) = ERROR /\
  errorMsg (st failedWorld) = Some (lit "timeout") /\
  let w2 :=
    reader_onload 0 (Some (lit "data:image/png;base64,iVBOR")) (lit "blob:dog")
      (handleFileSelect (Some [pngFile]) failedWorld) in
  status (st w2) = IDLE /\ errorMsg (st w2) = None /\ resultImage (st w2) = None.
Proof.
  split; [reflexivity|]. split; [reflexivity|]. split; [reflexivity|].
  pose proof (C10_acquire_discards_outcome failedWorld pngFile [] 0x64
                (lit "ata:image/png;base64,iVBOR") (lit "blob:dog") eq_refl)
    as (_ & _ & _ & Hr & He & Hs & _).
  split; [exact Hs|]. split; [exact He|exact Hr].
Defined.

(** * Further properties of the component *)

(** ** Invariants of the reachable states *)

Lemma coherent_initial : coherent initialWorld.
Proof.
  unfold coherent. simpl. repeat split; try discriminate; constructor.
Qed.

Ltac coherent_goals H6 :=
  unfold coherent; simpl; split_and!;
  try discriminate; try assumption; try (intros _; reflexivity);
  try (intros ? ?; apply H6; assumption).

Lemma coherent_handleFileSelect (files : option (list File)) (w : World) :
  coherent w -> coherent (handleFileSelect files w).
Proof.
  intros H. unfold handleFileSelect.
  destruct files as [[|file rest]|]; try exact H.
  destruct H as (H1 & H2 & H3 & H5 & H6 & H7).
  destruct (startsWith (type file) (lit "image/")) eqn:E; cbn [negb].
  - coherent_goals H6.
    apply Forall_app. split; [exact H5|]. constructor; [exact E|constructor].
  - unfold with_st. coherent_goals H6.
Qed.

Lemma coherent_reader_onload (i : nat) (result : option jsstring)
    (objUrl : jsstring) (w : World) :
  coherent w -> coherent (reader_onload i result objUrl w).
Proof.
  intros H. unfold reader_onload.
  destruct (readers w !! i) as [file|] eqn:E; [|exact H].
  destruct H as (H1 & H2 & H3 & H5 & H6 & H7).
  assert (Hd : Forall (fun f => startsWith (type f) (lit "image/") = true)
                 (delete i (readers w))) by (apply Forall_delete; exact H5).
  destruct result as [[|c r]|]; coherent_goals H6.
  intros image [= <-]. simpl. split_and!.
  - exact (Forall_lookup_1 _ _ _ _ H5 E).
  - reflexivity.
  - apply elem_of_cons. left. reflexivity.
Qed.

Lemma coherent_handleGenerate (w : World) :
  coherent w -> coherent (handleGenerate w).
Proof.
  intros H. unfold handleGenerate.
  destruct (originalImage (st w)) as [image|] eqn:E; [|exact H].
  rewrite truthy_trim, negb_involutive.
  destruct (blank (prompt (st w))) eqn:B; [exact H|].
  destruct H as (H1 & H2 & H3 & H5 & H6 & H7).
  destruct (H6 image E) as (M & D & U).
  coherent_goals H6.
  apply Forall_app. split; [exact H7|].
  constructor; [|constructor]. simpl. auto.
Qed.

Lemma truthy_or_else (v : option jsstring) (d : jsstring) :
  truthy d = true -> truthy (or_else v d) = true.
Proof. destruct v as [[|c s]|]; simpl; auto. Qed.

Lemma coherent_resume (i : nat) (a : Awaited) (w : World) :
  coherent w -> coherent (handleGenerate_resume i a w).
Proof.
  intros H. unfold handleGenerate_resume.
  destruct (inflight w !! i) as [c|]; [|exact H].
  destruct H as (H1 & H2 & H3 & H5 & H6 & H7).
  assert (Hd := Forall_delete _ _ i H7).
  destruct a as [[[[|d u]|] t]|e|]; coherent_goals H6;
    intros _; apply truthy_or_else; reflexivity.
Qed.

Lemma coherent_handleReset (w : World) : coherent w -> coherent (handleReset w).
Proof.
  intros (H1 & H2 & H3 & H5 & H6 & H7). coherent_goals H6.
Qed.

Lemma coherent_step (w : World) (e : Event) : coherent w -> coherent (step w e).
Proof.
  intros H.
  assert (R : forall v, coherent v -> coherent (render v)).
  { intros v Hv. exact Hv. }
  apply R. unfold dispatch.
  destruct e as [value files|i result objUrl|value| | |i a];
    destruct (originalImage (st w)) eqn:E; try exact H.
  - apply coherent_handleFileSelect.
    destruct H as (H1 & H2 & H3 & H5 & H6 & H7).
    coherent_goals H6.
  - apply coherent_reader_onload, H.
  - apply coherent_reader_onload, H.
  - unfold clickGenerate. destruct (generateDisabled (st w)); [exact H|].
    apply coherent_handleGenerate, H.
  - apply coherent_handleReset, H.
  - apply coherent_resume, H.
  - apply coherent_resume, H.
Qed.

Lemma coherent_run (evs : list Event) :
  forall w : World, coherent w -> coherent (run w evs).
Proof.
  induction evs as [|e evs IH]; intros w H; [exact H|].
  apply (IH (step w e)), coherent_step, H.
Qed.

Lemma coherent_reachable (evs : list Event) : coherent (run initialWorld evs).
Proof. apply coherent_run, coherent_initial. Qed.

(** X1.  In every state the component reaches, the status [SUCCESS] comes
    with a stored, non-empty result image, so the result panel shows it. *)
Theorem reachable_success_has_result (evs : list Event) :
  status (st (run initialWorld evs)) = SUCCESS ->
  exists c u,
    resultImage (st (run initialWorld evs)) = Some (c :: u) /\
    resultPanel (st (run initialWorld evs)) = ResultShown (c :: u).
Proof.
  intros H. destruct (coherent_reachable evs) as (H1 & _).
  specialize (H1 H). unfold resultPanel.
  destruct (resultImage (st (run initialWorld evs))) as [[|c u]|];
    try discriminate.
  exists c, u. split; reflexivity.
Qed.

Lemma reachable_success_has_result_witness :
  status (st (run initialWorld successEvents)) = SUCCESS /\
  exists c u,
    resultImage (st (run initialWorld successEvents)) = Some (c :: u) /\
    resultPanel (st (run initialWorld successEvents)) = ResultShown (c :: u).
Proof.
  split; [reflexivity|].
  apply (reachable_success_has_result successEvents). reflexivity.
Defined.

(** X2.  In every state the component reaches, the status [ERROR] comes
    with a stored, non-empty error message, the content of the error box. *)
Theorem reachable_error_has_message (evs : list Event) :
  status (st (run initialWorld evs)) = ERROR ->
  exists c m,
    errorMsg (st (run initialWorld evs)) = Some (c :: m) /\
    errorBox (st (run initialWorld evs)) = Some (c :: m).
Proof.
  intros H. destruct (coherent_reachable evs) as (_ & H2 & _).
  specialize (H2 H). unfold errorBox.
  destruct (errorMsg (st (run initialWorld evs))) as [[|c m]|];
    try discriminate.
  exists c, m. split; reflexivity.
Qed.

Lemma reachable_error_has_message_witness :
  status (st (run initialWorld errorEvents)) = ERROR /\
  exists c m,
    errorMsg (st (run initialWorld errorEvents)) = Some (c :: m) /\
    errorBox (st (run initialWorld errorEvents)) = Some (c :: m).
Proof.
  split; [reflexivity|].
  apply (reachable_error_has_message errorEvents). reflexivity.
Defined.

(** X3.  In every state the component reaches, the status [IDLE] comes
    with no stored result: the result panel shows the placeholder. *)
Theorem reachable_idle_has_no_result (evs : list Event) :
  status (st (run initialWorld evs)) = IDLE ->
  resultImage (st (run initialWorld evs)) = None /\
  resultPanel (st (run initialWorld evs)) = Placeholder.
Proof.
  intros H. destruct (coherent_reachable evs) as (_ & _ & H3 & _).
  specialize (H3 H). unfold resultPanel. rewrite H3, H. split; reflexivity.
Qed.

Lemma reachable_idle_has_no_result_witness :
  status (st (run initialWorld acquireEvents)) = IDLE /\
  resultImage (st (run initialWorld acquireEvents)) = None /\
  resultPanel (st (run initialWorld acquireEvents)) = Placeholder.
Proof.
  split; [reflexivity|].
  apply (reachable_idle_has_no_result acquireEvents). reflexivity.
Defined.

Lemma handleFileSelect_keeps (files : option (list File)) (w : World) :
  status (st (handleFileSelect files w)) = status (st w) /\
  inflight (handleFileSelect files w) = inflight w /\
  originalImage (st (handleFileSelect files w)) = originalImage (st w).
Proof.
  unfold handleFileSelect. destruct files as [[|file rest]|]; auto.
  destruct (negb _); auto.
Qed.

Lemma loading_backed_step (w : World) (e : Event) :
  nullish e = false -> loading_backed w -> loading_backed (step w e).
Proof.
  intros N B. unfold loading_backed, step, render. cbn [st inflight].
  unfold dispatch.
  destruct e as [value files|i result objUrl|value| | |i a];
    destruct (originalImage (st w)) as [image|] eqn:E; try exact B.
  - destruct (handleFileSelect_keeps files
                (mkWorld (st w) (Some value) (readers w) (inflight w)
                   (objectURLs w))) as (Hs & Hi & _).
    rewrite Hs, Hi. exact B.
  - unfold reader_onload. destruct (readers w !! i); [|exact B].
    destruct result as [[|c r]|]; simpl; try exact B. discriminate.
  - unfold reader_onload. destruct (readers w !! i); [|exact B].
    destruct result as [[|c r]|]; simpl; try exact B. discriminate.
  - unfold clickGenerate. destruct (generateDisabled (st w)); [exact B|].
    unfold handleGenerate. rewrite E.
    destruct (negb _); [exact B|]. simpl.
    intros _. destruct (inflight w); discriminate.
  - simpl. discriminate.
  - unfold handleGenerate_resume. destruct (inflight w !! i); [|exact B].
    simpl. intros H. exfalso.
    assert (Hn : a <> RejectedNullish) by (destruct a; simpl in N; congruence).
    destruct (settle_status a (st w) Hn) as [S|S]; congruence.
  - unfold handleGenerate_resume. destruct (inflight w !! i); [|exact B].
    simpl. intros H. exfalso.
    assert (Hn : a <> RejectedNullish) by (destruct a; simpl in N; congruence).
    destruct (settle_status a (st w) Hn) as [S|S]; congruence.
Qed.

Lemma loading_backed_run (evs : list Event) :
  forall w : World,
    no_nullish evs = true -> loading_backed w -> loading_backed (run w evs).
Proof.
  induction evs as [|e evs IH]; intros w N B; [exact B|].
  simpl in N. apply andb_prop in N. destruct N as [Ne N].
  apply (IH (step w e) N), loading_backed_step; [|exact B].
  apply negb_true_iff. exact Ne.
Qed.

(** X4.  In every state reached by a run in which no call is rejected with
    [null] or [undefined], the status [LOADING] has a call in flight
    behind it: the spinner is not shown with nothing left to end it. *)
Theorem reachable_loading_has_call (evs : list Event) :
  no_nullish evs = true ->
  status (st (run initialWorld evs)) = LOADING ->
  exists c rest, inflight (run initialWorld evs) = c :: rest.
Proof.
  intros N H.
  assert (B : loading_backed (run initialWorld evs)).
  { apply loading_backed_run; [exact N|]. intros C. discriminate. }
  specialize (B H).
  destruct (inflight (run initialWorld evs)) as [|c rest]; [congruence|].
  exists c, rest. reflexivity.
Qed.

Lemma reachable_loading_has_call_witness :
  no_nullish generateEvents = true /\
  status (st (run initialWorld generateEvents)) = LOADING /\
  exists c rest, inflight (run initialWorld generateEvents) = c :: rest.
Proof.
  split; [reflexivity|]. split; [reflexivity|].
  apply (reachable_loading_has_call generateEvents); reflexivity.
Defined.

(** After a rejection with [undefined] the spinner has nothing behind it. *)
Example loading_without_call :
  status (st (run initialWorld nullishEvents)) = LOADING /\
  inflight (run initialWorld nullishEvents) = [].
Proof. split; reflexivity. Qed.

(** X5.  Every call the component has in flight was submitted with an
    instruction that is not blank and with an image whose type starts with
    [image/] and whose data is not empty. *)
Theorem reachable_calls_wellformed (evs : list Event) (i : nat) (c : Call) :
  inflight (run initialWorld evs) !! i = Some c ->
  blank (call_prompt c) = false /\
  startsWith (mimeType (call_image c)) (lit "image/") = true /\
  base64 (call_image c) <> [].
Proof.
  intros H.
  destruct (coherent_reachable evs) as (_ & _ & _ & _ & _ & H7).
  destruct (Forall_lookup_1 _ _ _ _ H7 H) as (B & M & D).
  split_and!; try assumption.
  intros E. rewrite E in D. discriminate.
Qed.

Lemma reachable_calls_wellformed_witness :
  inflight (run initialWorld generateEvents) !! 0%nat
  = Some (mkCall jpegImage (lit "Convert to black and white")) /\
  blank (lit "Convert to black and white") = false.
Proof.
  split; [reflexivity|].
  exact (proj1 (reachable_calls_wellformed generateEvents 0
                  (mkCall jpegImage (lit "Convert to black and white"))
                  eq_refl)).
Defined.

(** X6.  The original image the component holds always has a type that
    starts with [image/], non-empty data, and an object URL that is still
    in the store. *)
Theorem reachable_image_wellformed (evs : list Event) (image : ImageData) :
  originalImage (st (run initialWorld evs)) = Some image ->
  startsWith (mimeType image) (lit "image/") = true /\
  base64 image <> [] /\
  url image ∈ objectURLs (run initialWorld evs).
Proof.
  intros H.
  destruct (coherent_reachable evs) as (_ & _ & _ & _ & H6 & _).
  destruct (H6 image H) as (M & D & U).
  split_and!; try assumption.
  intros E. rewrite E in D. discriminate.
Qed.

Lemma reachable_image_wellformed_witness :
  originalImage (st (run initialWorld successEvents)) = Some jpegImage /\
  url jpegImage ∈ objectURLs (run initialWorld successEvents).
Proof.
  split; [reflexivity|].
  exact (proj2 (proj2 (reachable_image_wellformed successEvents jpegImage
                         eq_refl))).
Defined.

(** ** One call at a time *)

Lemma single_flight_step (w : World) (e : Event) :
  single_flight w ->
  resets e = false \/ inflight w = [] ->
  single_flight (step w e).
Proof.
  intros J G. unfold single_flight, step, render. cbn [st inflight].
  unfold dispatch.
  destruct e as [value files|i result objUrl|value| | |i a];
    destruct (originalImage (st w)) as [image|] eqn:E; try exact J.
  - destruct (handleFileSelect_keeps files
                (mkWorld (st w) (Some value) (readers w) (inflight w)
                   (objectURLs w))) as (Hs & Hi & _).
    rewrite Hs, Hi. exact J.
  - destruct G as [G|G]; [discriminate|]. unfold reader_onload.
    destruct (readers w !! i); [|exact J].
    destruct result as [[|c r]|]; simpl; left; exact G.
  - destruct G as [G|G]; [discriminate|]. unfold reader_onload.
    destruct (readers w !! i); [|exact J].
    destruct result as [[|c r]|]; simpl; left; exact G.
  - unfold clickGenerate, generateDisabled.
    destruct (bool_decide (status (st w) = LOADING)) eqn:D; [exact J|].
    apply bool_decide_eq_false_1 in D. cbn [orb].
    destruct J as [Hn|[Hl _]]; [|congruence].
    unfold handleGenerate. rewrite E.
    destruct (negb (truthy (trim (prompt (st w))))); [left; exact Hn|].
    right. simpl. rewrite Hn. split; reflexivity.
  - destruct G as [G|G]; [discriminate|]. left. exact G.
  - unfold handleGenerate_resume.
    destruct (inflight w !! i) as [c|] eqn:L; [|exact J].
    left. simpl. destruct J as [Hn|[_ Hn]].
    + rewrite Hn in L. discriminate.
    + destruct (inflight w) as [|c0 [|c1 rest]]; try discriminate.
      destruct i; [reflexivity|discriminate].
  - unfold handleGenerate_resume.
    destruct (inflight w !! i) as [c|] eqn:L; [|exact J].
    left. simpl. destruct J as [Hn|[_ Hn]].
    + rewrite Hn in L. discriminate.
    + destruct (inflight w) as [|c0 [|c1 rest]]; try discriminate.
      destruct i; [reflexivity|discriminate].
Qed.

Lemma single_flight_run (evs : list Event) :
  forall w : World,
    single_flight w -> calm w evs = true -> single_flight (run w evs).
Proof.
  induction evs as [|e evs IH]; intros w J C; [exact J|].
  simpl in C. apply andb_prop in C. destruct C as [G C].
  apply (IH (step w e)); [|exact C].
  apply single_flight_step; [exact J|].
  apply orb_prop in G. destruct G as [G|G].
  - left. apply negb_true_iff. exact G.
  - right. apply bool_decide_eq_true_1 in G.
    destruct (inflight w); [reflexivity|discriminate].
Qed.

(** X7.  In a run from the initial state in which "Clear All" is never
    clicked and no file finishes loading while a call is in flight, at most
    one call is in flight at any time and a call is in flight only while
    the status is [LOADING]: the rendered controls never start a second
    call before the first has settled.  When in addition no call is
    rejected with [null] or [undefined], the status is [LOADING] exactly
    while one call is in flight. *)
Theorem calm_run_single_flight (evs : list Event) :
  calm initialWorld evs = true ->
  single_flight (run initialWorld evs) /\
  (length (inflight (run initialWorld evs)) <= 1)%nat /\
  (inflight (run initialWorld evs) <> [] ->
   status (st (run initialWorld evs)) = LOADING) /\
  (no_nullish evs = true ->
   (status (st (run initialWorld evs)) = LOADING <->
    length (inflight (run initialWorld evs)) = 1%nat)).
Proof.
  intros C.
  assert (J : single_flight (run initialWorld evs)).
  { apply single_flight_run; [|exact C]. left. reflexivity. }
  split; [exact J|]. split_and!.
  - destruct J as [H|[_ H]]; rewrite H; simpl; lia.
  - intros Hne. destruct J as [H|[H _]]; [congruence|exact H].
  - intros N. split.
    + intros Hl.
      assert (B : loading_backed (run initialWorld evs)).
      { apply loading_backed_run; [exact N|]. intros D. discriminate. }
      destruct J as [H|[_ H]]; [|exact H]. destruct (B Hl H).
    + intros Hlen. destruct J as [H|[H _]]; [|exact H].
      rewrite H in Hlen. discriminate.
Qed.

Lemma calm_run_single_flight_witness :
  calm initialWorld (generateEvents ++ [ClickGenerate; ClickGenerate]) = true /\
  (length (inflight (run initialWorld
                       (generateEvents ++ [ClickGenerate; ClickGenerate])))
   <= 1)%nat.
Proof.
  split; [reflexivity|].
  exact (proj1 (proj2 (calm_run_single_flight
                         (generateEvents ++ [ClickGenerate; ClickGenerate])
                         eq_refl))).
Defined.

(** ** What the user sees *)

(** X8.  While no image is held, choosing a file whose type does not start
    with [image/] stores the message "Please select a valid image file."
    but the intro section stays displayed, and that section has no error
    box: the message is not shown. *)
Theorem rejected_file_message_not_shown (w : World) (value : jsstring)
    (file : File) (rest : list File) :
  originalImage (st w) = None ->
  startsWith (type file) (lit "image/") = false ->
  let w' := step w (ChangeFile value (Some (file :: rest))) in
  errorMsg (st w') = Some (lit "Please select a valid image file.") /\
  view (st w') = IntroView /\
  readers w' = readers w.
Proof.
  intros E T w'. subst w'. unfold step, render, dispatch. rewrite E.
  unfold handleFileSelect. rewrite T. cbn [negb]. unfold view. simpl.
  rewrite E. split_and!; reflexivity.
Qed.

Lemma rejected_file_message_not_shown_witness :
  originalImage (st initialWorld) = None /\
  startsWith (type textFile) (lit "image/") = false /\
  view (st (step initialWorld
              (ChangeFile (lit "C:\fakepath\notes.txt") (Some [textFile]))))
  = IntroView.
Proof.
  split; [reflexivity|]. split; [reflexivity|].
  exact (proj1 (proj2 (rejected_file_message_not_shown initialWorld
                         (lit "C:\fakepath\notes.txt") textFile []
                         eq_refl eq_refl))).
Defined.

(** X9.  Whenever an event brings the display from the intro section to
    the workspace, the workspace opens in the idle state with no error box
    and the placeholder in the result panel, whatever result or error was
    stored before. *)
Theorem workspace_opens_clean (w : World) (e : Event) (ws : Workspace) :
  originalImage (st w) = None ->
  view (st (step w e)) = WorkspaceView ws ->
  status (st (step w e)) = IDLE /\
  ws_error ws = None /\
  ws_result ws = Placeholder /\
  ws_generating ws = false /\
  ws_textarea ws = prompt (st w).
Proof.
  intros E. unfold step, render. cbn [st]. unfold dispatch.
  destruct e as [value files|i result objUrl|value| | |i a]; try rewrite E.
  - destruct (handleFileSelect_keeps files
                (mkWorld (st w) (Some value) (readers w) (inflight w)
                   (objectURLs w))) as (_ & _ & Ho).
    unfold view. rewrite Ho. simpl. rewrite E. discriminate.
  - unfold reader_onload. destruct (readers w !! i) as [file|].
    + destruct result as [[|c r]|]; unfold view; simpl;
        try (rewrite E; discriminate).
      intros [= <-]. simpl. split_and!; reflexivity.
    + unfold view. rewrite E. discriminate.
  - unfold view. rewrite E. discriminate.
  - unfold view. rewrite E. discriminate.
  - unfold view. rewrite E. discriminate.
  - unfold handleGenerate_resume. destruct (inflight w !! i).
    + unfold view. cbn [st].
      rewrite (proj1 (settle_keeps a (st w))), E. discriminate.
    + unfold view. rewrite E. discriminate.
Qed.

Lemma workspace_opens_clean_witness :
  let w := handleReset failedWorld in
  let e := ReaderLoaded 0 (Some (base64 jpegImage)) (url jpegImage) in
  let w0 := mkWorld (setErrorMsg (Some (lit "stale")) (st w)) (fileInputRef w)
              [jpegFile] (inflight w) (objectURLs w) in
  let ws := mkWorkspace (url jpegImage) [] true false None Placeholder in
  originalImage (st w0) = None /\
  errorMsg (st w0) = Some (lit "stale") /\
  view (st (step w0 e)) = WorkspaceView ws /\
  status (st (step w0 e)) = IDLE /\
  ws_error ws = None.
Proof.
  intros w e w0 ws. split; [reflexivity|]. split; [reflexivity|].
  split; [reflexivity|].
  pose proof (workspace_opens_clean w0 e ws eq_refl eq_refl)
    as (Hs & He & _).
  split; [exact Hs|exact He].
Defined.

(** X10.  When the workspace is displayed and the generate button is
    enabled, a click on it always submits: exactly one call is added, with
    the held image and the instruction as typed, and the display switches
    to the spinner with the button disabled, no error box and no result. *)
Theorem enabled_click_submits (w : World) (image : ImageData) :
  originalImage (st w) = Some image ->
  generateDisabled (st w) = false ->
  let w' := step w ClickGenerate in
  inflight w' = inflight w ++ [mkCall image (prompt (st w))] /\
  view (st w')
  = WorkspaceView
      (mkWorkspace (url image) (prompt (st w)) true true None Spinner).
Proof.
  intros E D w'. subst w'. unfold step, render, dispatch, clickGenerate.
  rewrite E, D. unfold generateDisabled in D.
  apply orb_false_iff in D. destruct D as [_ D].
  apply negb_false_iff in D. unfold handleGenerate. rewrite E, D.
  cbn [negb inflight st]. split; [reflexivity|].
  unfold view, generateDisabled, resultPanel, errorBox. simpl.
  rewrite E. reflexivity.
Qed.

Lemma enabled_click_submits_witness :
  originalImage (st readyWorld) = Some jpegImage /\
  generateDisabled (st readyWorld) = false /\
  inflight (step readyWorld ClickGenerate)
  = [mkCall jpegImage (lit "Convert to black and white")].
Proof.
  split; [reflexivity|]. split; [reflexivity|].
  exact (proj1 (enabled_click_submits readyWorld jpegImage eq_refl eq_refl)).
Defined.

(** X11.  [handleReset] does not cancel a file that is still being read:
    when its reader loads after the reset, the image is installed and the
    session is back in the idle state with that image and an empty
    instruction. *)
Theorem reset_keeps_pending_reader (w : World) (i : nat) (file : File)
    (c : N) (r objUrl : jsstring) :
  readers w !! i = Some file ->
  st (reader_onload i (Some (c :: r)) objUrl (handleReset w))
  = mkAppState (Some (mkImageData (c :: r) (type file) objUrl)) [] IDLE
               None None.
Proof.
  intros H. unfold reader_onload. cbn [handleReset readers]. rewrite H.
  reflexivity.
Qed.

Lemma reset_keeps_pending_reader_witness :
  readers (handleFileSelect (Some [pngFile]) readyWorld) !! 0%nat
  = Some pngFile /\
  originalImage
    (st (reader_onload 0 (Some (lit "data:image/png;base64,iVBOR"))
           (lit "blob:dog")
           (handleReset (handleFileSelect (Some [pngFile]) readyWorld))))
  = Some (mkImageData (lit "data:image/png;base64,iVBOR") (lit "image/png")
                      (lit "blob:dog")).
Proof.
  split; [reflexivity|].
  exact (f_equal originalImage
           (reset_keeps_pending_reader
              (handleFileSelect (Some [pngFile]) readyWorld) 0 pngFile
              0x64 (lit "ata:image/png;base64,iVBOR") (lit "blob:dog")
              eq_refl)).
Defined.

(** ** [downloadImage] *)

Lemma removeChild_last (node : nat) (children : list nat) :
  Forall (fun n => (n < node)%nat) children ->
  removeChild node (children ++ [node]) = children.
Proof.
  induction 1 as [|n rest Hn _ IH]; simpl.
  - rewrite Nat.eqb_refl. reflexivity.
  - destruct (Nat.eqb_spec n node) as [->|_]; [lia|].
    rewrite IH. reflexivity.
Qed.

(** X12.  [downloadImage] leaves the children of the document body as it
    found them.  With a stored, non-empty result it clicks exactly one
    anchor, whose target is that result and whose file name is built from
    the time of the click; with no result it clicks nothing. *)
Theorem downloadImage_effect (now : Z) (s : AppState) (d : Document) :
  Forall (fun n => (n < nextNode d)%nat) (body d) ->
  body (downloadImage now s d) = body d /\
  clicked (downloadImage now s d)
  = clicked d ++
    match resultImage s with
    | Some (c :: u) => [mkAnchor (c :: u) (downloadName now)]
    | _ => []
    end.
Proof.
  intros H. unfold downloadImage.
  destruct (resultImage s) as [[|c u]|]; simpl;
    rewrite ?app_nil_r; try (split; reflexivity).
  split; [apply removeChild_last; exact H|reflexivity].
Qed.

Lemma downloadImage_effect_witness :
  let s := st (run initialWorld successEvents) in
  let d := mkDocument [0; 1; 2]%nat 3 [] in
  Forall (fun n => (n < nextNode d)%nat) (body d) /\
  body (downloadImage 1700000000000 s d) = [0; 1; 2]%nat /\
  clicked (downloadImage 1700000000000 s d)
  = [mkAnchor editedUrl (lit "nano-banana-edit-1700000000000.png")].
Proof.
  intros s d.
  assert (H : Forall (fun n => (n < nextNode d)%nat) (body d)).
  { repeat constructor. }
  split; [exact H|].
  exact (downloadImage_effect 1700000000000 s d H).
Defined.





(** ** The prompt suggestions *)

Lemma suggestion_not_blank (catIdx idx : nat) (s : jsstring) :
  suggestion catIdx idx = Some s -> blank s = false.
Proof.
  unfold suggestion.
  destruct catIdx as [|[|[|k]]]; simpl; try discriminate;
    destruct idx as [|[|[|[|[|m]]]]]; simpl; try discriminate;
    intros [= <-]; reflexivity.
Qed.

(** X14.  Every suggestion of [PROMPT_CATEGORIES] is a usable
    instruction: with the workspace displayed and no call loading, a click
    on a suggestion button makes it the instruction and enables the
    generate button, and a click on that button submits the held image
    with the suggestion. *)
Theorem suggestion_then_generate (w : World) (image : ImageData)
    (catIdx idx : nat) (s : jsstring) :
  originalImage (st w) = Some image ->
  status (st w) <> LOADING ->
  suggestion catIdx idx = Some s ->
  let w' := clickSuggestion catIdx idx w in
  prompt (st w') = s /\
  generateDisabled (st w') = false /\
  inflight (clickGenerate w') = inflight w ++ [mkCall image s].
Proof.
  intros E L S w'. subst w'. unfold clickSuggestion. rewrite S, E.
  pose proof (suggestion_not_blank _ _ _ S) as B.
  assert (D : generateDisabled (st (with_st (setPrompt s) w)) = false).
  { unfold generateDisabled. cbn [with_st st setPrompt status prompt].
    rewrite bool_decide_eq_false_2 by exact L.
    rewrite truthy_trim, B. reflexivity. }
  split; [reflexivity|]. split; [exact D|].
  unfold clickGenerate. rewrite D.
  rewrite (handleGenerate_fires (with_st (setPrompt s) w) image); auto.
Qed.

Lemma suggestion_then_generate_witness :
  originalImage (st readyWorld) = Some jpegImage /\
  status (st readyWorld) <> LOADING /\
  suggestion 1 2 = Some (lit "Style as a 1990s anime screenshot") /\
  inflight (clickGenerate (clickSuggestion 1 2 readyWorld))
  = [mkCall jpegImage (lit "Style as a 1990s anime screenshot")].
Proof.
  assert (L : status (st readyWorld) <> LOADING) by discriminate.
  split; [reflexivity|]. split; [exact L|]. split; [reflexivity|].
  exact (proj2 (proj2 (suggestion_then_generate readyWorld jpegImage 1 2 _
                         eq_refl L eq_refl))).
Defined.

(** ** One outcome at a time *)

Lemma exclusive_step (w : World) (e : Event) :
  single_flight w -> exclusive (st w) ->
  resets e = false \/ inflight w = [] ->
  exclusive (st (step w e)).
Proof.
  intros J K G. unfold step, render. cbn [st]. unfold dispatch.
  destruct e as [value files|i result objUrl|value| | |i a];
    destruct (originalImage (st w)) as [image|] eqn:E; try exact K.
  - unfold handleFileSelect. destruct files as [[|file rest]|]; try exact K.
    destruct (negb _); [|exact K].
    destruct K as (KL & KS & KE). unfold exclusive. simpl. split_and!.
    + intros H. destruct (KL H) as (C & _). congruence.
    + intros H. destruct (KS H) as (C & _). congruence.
    + exact KE.
  - unfold reader_onload. destruct (readers w !! i); [|exact K].
    destruct result as [[|c r]|]; try exact K.
    unfold exclusive. simpl. split_and!; discriminate.
  - unfold reader_onload. destruct (readers w !! i); [|exact K].
    destruct result as [[|c r]|]; try exact K.
    unfold exclusive. simpl. split_and!; discriminate.
  - unfold clickGenerate. destruct (generateDisabled (st w)); [exact K|].
    unfold handleGenerate. rewrite E.
    destruct (negb _); [exact K|].
    unfold exclusive. simpl. rewrite E. split_and!; try discriminate.
    intros _. split_and!; congruence.
  - unfold exclusive. simpl. split_and!; discriminate.
  - unfold handleGenerate_resume.
    destruct (inflight w !! i) as [c|] eqn:L; [|exact K].
    destruct J as [Hn|[Hl _]]; [rewrite Hn in L; discriminate|].
    pose proof K as (KL & _). destruct (KL Hl) as (Ho & Hr & He). cbn [st].
    destruct a as [[[[|d u]|] t]|err|]; try exact K;
      unfold exclusive; simpl;
      split_and!; try discriminate; intros _;
      try split_and!; try assumption.
  - unfold handleGenerate_resume.
    destruct (inflight w !! i) as [c|] eqn:L; [|exact K].
    destruct J as [Hn|[Hl _]]; [rewrite Hn in L; discriminate|].
    destruct K as (KL & _). destruct (KL Hl) as (Ho & _). congruence.
Qed.

Lemma exclusive_run (evs : list Event) :
  forall w : World,
    single_flight w -> exclusive (st w) -> calm w evs = true ->
    exclusive (st (run w evs)).
Proof.
  induction evs as [|e evs IH]; intros w J K C; [exact K|].
  simpl in C. apply andb_prop in C. destruct C as [G C].
  assert (G' : resets e = false \/ inflight w = []).
  { apply orb_prop in G. destruct G as [G|G].
    - left. apply negb_true_iff. exact G.
    - right. apply bool_decide_eq_true_1 in G.
      destruct (inflight w); [reflexivity|discriminate]. }
  apply (IH (step w e)); [| |exact C].
  - apply single_flight_step; assumption.
  - apply exclusive_step; assumption.
Qed.

(** X15.  In a run from the initial state in which "Clear All" is never
    clicked and no file finishes loading while a call is in flight, the
    display never mixes outcomes: while loading no result and no error is
    stored, a success has no error beside it, and an error has no result
    beside it. *)
Theorem calm_run_exclusive (evs : list Event) :
  calm initialWorld evs = true ->
  let s := st (run initialWorld evs) in
  (status s = LOADING -> resultPanel s = Spinner /\ errorBox s = None) /\
  (status s = SUCCESS -> errorBox s = None) /\
  (status s = ERROR -> resultPanel s = Placeholder).
Proof.
  intros C s.
  assert (K : exclusive s).
  { apply exclusive_run; [| |exact C].
    - left. reflexivity.
    - unfold exclusive. simpl. split_and!; discriminate. }
  destruct K as (KL & KS & KE). unfold resultPanel, errorBox. split_and!.
  - intros H. destruct (KL H) as (_ & Hr & He). rewrite Hr, He, H.
    split; reflexivity.
  - intros H. destruct (KS H) as (_ & He). rewrite He. reflexivity.
  - intros H. rewrite (KE H), H. reflexivity.
Qed.

Lemma calm_run_exclusive_witness :
  calm initialWorld
    (errorEvents ++ [ClickGenerate;
                     Settled 0 (Resolved (mkGeneratedResult (Some editedUrl) None))])
  = true /\
  errorBox
    (st (run initialWorld
           (errorEvents ++ [ClickGenerate;
                            Settled 0 (Resolved (mkGeneratedResult (Some editedUrl) None))])))
  = None.
Proof.
  split; [reflexivity|].
  apply (calm_run_exclusive
           (errorEvents ++ [ClickGenerate;
                            Settled 0 (Resolved (mkGeneratedResult (Some editedUrl) None))])
           eq_refl).
  reflexivity.
Defined.

(** Without that condition the outcomes do mix: a call answered with an
    error after a reset, and a second call answered with an image, leave
    the result and the error message of the first call displayed together. *)
Example result_and_error_together :
  view (st (run loadingWorld
              [ClickClearAll;
               ChangeFile (lit "C:\fakepath\cat.jpg") (Some [jpegFile]);
               ReaderLoaded 0 (Some (base64 jpegImage)) (url jpegImage);
               ChangePrompt (lit "Add a hat");
               ClickGenerate;
               Settled 0 (Rejected (mkJsError (Some (lit "timeout"))));
               Settled 0 (Resolved (mkGeneratedResult (Some editedUrl) None))]))
  = WorkspaceView
      (mkWorkspace (url jpegImage) (lit "Add a hat") false false
                   (Some (lit "timeout")) (ResultShown editedUrl)).
Proof. reflexivity. Qed.
